(** * Mergington High School activities API (src/app.py)

    A shallow embedding of the FastAPI application: the in-memory
    [activities] table, the three handlers [root], [get_activities] and
    [signup_for_activity], and the routes their decorators register.
    The module-level dictionary is mutated in place by the handlers, so
    every handler is a function from the table before the call to its
    result and the table after the call. A second model keeps the
    participants lists as objects changed in place; it is shown to agree
    with the first and carries the fixture of tests/test_app.py. *)

From stdpp Require Import gmap strings list fin_maps.
From Stdlib Require Import ZArith Ascii.

Local Open Scope Z_scope.

(** ** Data model *)

(** One value of the [activities] dictionary: a dictionary with the four
    keys "description", "schedule", "max_participants", "participants". *)
Record Activity := mkActivity {
  description : string;
  schedule : string;
  max_participants : Z;
  participants : list string
}.

(** The table itself: activity name -> activity. *)
Abbreviation Directory := (gmap string Activity).

(** [activity["participants"].append(email)]: the list object stored in
    the activity grows by one element at its end; the other keys are
    untouched. *)
Definition append_participant (email : string) (activity : Activity) : Activity :=
  {| description := description activity;
     schedule := schedule activity;
     max_participants := max_participants activity;
     participants := participants activity ++ [email] |}.

(** [HTTPException(status_code=..., detail=...)]. *)
Record HTTPException := mkHTTPException {
  status_code : Z;
  detail : string
}.

(** A handler either returns a value or raises an [HTTPException]. *)
Inductive outcome (A : Type) : Type :=
| Return (a : A)
| Raise (e : HTTPException).
Arguments Return {A} a.
Arguments Raise {A} e.

(** The dictionary [{"message": ...}] returned by a successful signup. *)
Record Message := mkMessage { message : string }.

(** ** The seeded table (app.py, lines 23-78) *)

Definition activities : Directory :=
  <["Chess Club" := mkActivity
      "Learn strategies and compete in chess tournaments"
      "Fridays, 3:30 PM - 5:00 PM"
      12
      ["michael@mergington.edu"; "daniel@mergington.edu"]]>
  (<["Programming Class" := mkActivity
      "Learn programming fundamentals and build software projects"
      "Tuesdays and Thursdays, 3:30 PM - 4:30 PM"
      20
      ["emma@mergington.edu"; "sophia@mergington.edu"]]>
  (<["Gym Class" := mkActivity
      "Physical education and sports activities"
      "Mondays, Wednesdays, Fridays, 2:00 PM - 3:00 PM"
      30
      ["john@mergington.edu"; "olivia@mergington.edu"]]>
  (<["Basketball Team" := mkActivity
      "Join the competitive basketball team and compete in interscholastic games"
      "Mondays and Wednesdays, 4:00 PM - 5:30 PM"
      15
      ["alex@mergington.edu"]]>
  (<["Swimming Team" := mkActivity
      "Competitive swimming with training and meets throughout the season"
      "Tuesdays and Thursdays, 4:00 PM - 5:30 PM"
      20
      ["marcus@mergington.edu"; "jasmine@mergington.edu"]]>
  (<["Drama Club" := mkActivity
      "Perform in school plays and develop acting and theatrical skills"
      "Thursdays, 3:30 PM - 5:00 PM"
      25
      ["lucy@mergington.edu"]]>
  (<["Art Club" := mkActivity
      "Explore various art mediums and create collaborative art projects"
      "Wednesdays, 3:30 PM - 5:00 PM"
      18
      ["nina@mergington.edu"; "david@mergington.edu"]]>
  (<["Debate Club" := mkActivity
      "Develop public speaking and argumentation skills through competitive debate"
      "Mondays and Fridays, 3:30 PM - 5:00 PM"
      16
      ["ryan@mergington.edu"]]>
  (<["Science Club" := mkActivity
      "Conduct experiments and explore scientific concepts through hands-on projects"
      "Tuesdays, 4:30 PM - 5:30 PM"
      20
      ["priya@mergington.edu"; "chris@mergington.edu"]]>
  ∅)))))))).

(** ** Handlers *)

(** [root()]: the URL of the [RedirectResponse]. *)
Definition root : string := "/static/index.html".

(** [get_activities()]: returns the table object itself. *)
Definition get_activities (acts : Directory) : Directory * Directory :=
  (acts, acts).

(** [signup_for_activity(activity_name, email)] (app.py, lines 92-107). *)
Definition signup_for_activity (activity_name email : string) (acts : Directory)
  : outcome Message * Directory :=
  match acts !! activity_name with
  | None => (Raise (mkHTTPException 404 "Activity not found"), acts)
  | Some activity =>
      if decide (email ∈ participants activity)
      then (Raise (mkHTTPException 400 "Already signed up for this activity"), acts)
      else (Return (mkMessage ("Signed up " +:+ email +:+ " for " +:+ activity_name)),
            <[activity_name := append_participant email activity]> acts)
  end.

(** ** Routes

    The decorators of app.py register three routes on [app]:
    [GET /], [GET /activities] and
    [POST /activities/{activity_name}/signup]. A path is given by its
    segments; [email_param] is the value of the query parameter [email]
    when the request has one. *)

Inductive Method := GET | HEAD | POST | PUT | PATCH | DELETE | OPTIONS.

Record Request := mkRequest {
  method : Method;
  path : list string;
  email_param : option string
}.

Inductive Endpoint :=
| EpRoot
| EpGetActivities
| EpSignup (activity_name : string).

(** Whether a slash occurs in [s]. *)
Fixpoint has_slash (s : string) : bool :=
  match s with
  | EmptyString => false
  | String c s' => Ascii.eqb c "/"%char || has_slash s'
  end.

(** The path parameter [{activity_name}] stands for one character at
    least and for no slash, so a name that is empty or holds a slash is
    matched by no route. *)
Definition route (m : Method) (p : list string) : option Endpoint :=
  match m, p with
  | GET, [] => Some EpRoot
  | GET, [s] => if decide (s = "activities") then Some EpGetActivities else None
  | POST, [s1; activity_name; s3] =>
      if decide (s1 = "activities"
                 ∧ activity_name ≠ "" ∧ has_slash activity_name = false
                 ∧ s3 = "signup")
      then Some (EpSignup activity_name) else None
  | _, _ => None
  end.

(** What the client receives. [NoHandler] stands for every reply in which
    no function of app.py ran: a request that matches no registered
    route (the framework answers it, with an error or with a redirect to
    the same path with or without a final slash), a signup without its
    required [email] parameter, a file of the static mount. *)
Inductive Response :=
| RedirectResponse (url : string)
| JSONActivities (body : Directory)
| JSONMessage (body : Message)
| JSONError (e : HTTPException)
| NoHandler.

Definition handle (r : Request) (acts : Directory) : Response * Directory :=
  match route (method r) (path r) with
  | Some EpRoot => (RedirectResponse root, acts)
  | Some EpGetActivities =>
      let '(body, acts') := get_activities acts in (JSONActivities body, acts')
  | Some (EpSignup activity_name) =>
      match email_param r with
      | None => (NoHandler, acts)
      | Some email =>
          match signup_for_activity activity_name email acts with
          | (Return m, acts') => (JSONMessage m, acts')
          | (Raise e, acts') => (JSONError e, acts')
          end
      end
  | None => (NoHandler, acts)
  end.

(** The table after a sequence of requests, served one after the other. *)
Fixpoint run (rs : list Request) (acts : Directory) : Directory :=
  match rs with
  | [] => acts
  | r :: rs' => run rs' (snd (handle r acts))
  end.

(** A reply that is neither a 2xx body nor the redirect. *)
Definition is_failure (resp : Response) : bool :=
  match resp with
  | JSONError _ | NoHandler => true
  | _ => false
  end.

(** ** Auxiliary notions used in the statements *)

(** Python's [needle in hay] on strings. *)
Fixpoint str_contains (needle hay : string) : bool :=
  String.prefix needle hay ||
  match hay with
  | EmptyString => false
  | String _ hay' => str_contains needle hay'
  end.

(** No activity lists an email twice. *)
Definition no_duplicates (acts : Directory) : Prop :=
  map_Forall (λ _ activity, NoDup (participants activity)) acts.

(** The participants of an activity of the table ([[]] when absent). *)
Definition participants_of (activity_name : string) (acts : Directory) : list string :=
  match acts !! activity_name with
  | Some activity => participants activity
  | None => []
  end.

(** Requests used in the examples below. *)
Definition signup_request (activity_name email : string) : Request :=
  mkRequest POST ["activities"; activity_name; "signup"] (Some email).

Definition unregister_request (activity_name email : string) : Request :=
  mkRequest DELETE ["activities"; activity_name; "unregister"] (Some email).

Definition list_request : Request := mkRequest GET ["activities"] None.

(** The email of request [r] when [r] is a signup for [activity_name]
    that was answered with the confirmation [resp]. *)
Definition accepted_email (activity_name : string) (r : Request) (resp : Response)
  : option string :=
  match resp, path r, email_param r with
  | JSONMessage _, [_; name; _], Some email =>
      if decide (name = activity_name) then Some email else None
  | _, _, _ => None
  end.

(** The emails of the signups for [activity_name] accepted while [rs] is
    served from [acts], in the order of the requests. *)
Fixpoint accepted_emails (activity_name : string) (rs : list Request) (acts : Directory)
  : list string :=
  match rs with
  | [] => []
  | r :: rs' =>
      match accepted_email activity_name r (fst (handle r acts)) with
      | Some email => email :: accepted_emails activity_name rs' (snd (handle r acts))
      | None => accepted_emails activity_name rs' (snd (handle r acts))
      end
  end.

(** ** The table as Python objects

    In app.py the participants of an activity are a list object: the
    activity dictionary holds a reference to it and [append] changes it
    in place. [Store] makes these list objects explicit, each at a
    location of [lists]; the activity dictionaries, which no code
    changes after they are built, are values that hold the location of
    their list. The fixture of tests/test_app.py, which copies the lists
    and later puts the copies back, is stated on this model. *)

Abbreviation loc := positive.

Record ActivityObj := mkActivityObj {
  obj_description : string;
  obj_schedule : string;
  obj_max_participants : Z;
  obj_participants : loc
}.

Record Store := mkStore {
  table : gmap string ActivityObj;
  lists : gmap loc (list string)
}.

(** The contents of the list object at [l]. *)
Definition list_at (l : loc) (h : gmap loc (list string)) : list string :=
  default [] (h !! l).

(** What a client sees of the store: every activity with the current
    contents of its list (the JSON encoding of [activities]). *)
Definition serialize (st : Store) : Directory :=
  (λ o, mkActivity (obj_description o) (obj_schedule o) (obj_max_participants o)
          (list_at (obj_participants o) (lists st))) <$> table st.

(** [signup_for_activity] on the store: [append] updates the list object
    the activity refers to. *)
Definition signup_for_activity_obj (activity_name email : string) (st : Store)
  : outcome Message * Store :=
  match table st !! activity_name with
  | None => (Raise (mkHTTPException 404 "Activity not found"), st)
  | Some activity =>
      let l := obj_participants activity in
      if decide (email ∈ list_at l (lists st))
      then (Raise (mkHTTPException 400 "Already signed up for this activity"), st)
      else (Return (mkMessage ("Signed up " +:+ email +:+ " for " +:+ activity_name)),
            mkStore (table st) (<[l := list_at l (lists st) ++ [email]]> (lists st)))
  end.

Definition handle_obj (r : Request) (st : Store) : Response * Store :=
  match route (method r) (path r) with
  | Some EpRoot => (RedirectResponse root, st)
  | Some EpGetActivities => (JSONActivities (serialize st), st)
  | Some (EpSignup activity_name) =>
      match email_param r with
      | None => (NoHandler, st)
      | Some email =>
          match signup_for_activity_obj activity_name email st with
          | (Return m, st') => (JSONMessage m, st')
          | (Raise e, st') => (JSONError e, st')
          end
      end
  | None => (NoHandler, st)
  end.

Fixpoint run_obj (rs : list Request) (st : Store) : Store :=
  match rs with
  | [] => st
  | r :: rs' => run_obj rs' (snd (handle_obj r st))
  end.

(** The seeded table as objects: the nine list literals of app.py, lines
    23-78, are nine list objects. *)
Definition activities_obj : Store :=
  mkStore
    (<["Chess Club" := mkActivityObj
        "Learn strategies and compete in chess tournaments"
        "Fridays, 3:30 PM - 5:00 PM"
        12 1]>
    (<["Programming Class" := mkActivityObj
        "Learn programming fundamentals and build software projects"
        "Tuesdays and Thursdays, 3:30 PM - 4:30 PM"
        20 2]>
    (<["Gym Class" := mkActivityObj
        "Physical education and sports activities"
        "Mondays, Wednesdays, Fridays, 2:00 PM - 3:00 PM"
        30 3]>
    (<["Basketball Team" := mkActivityObj
        "Join the competitive basketball team and compete in interscholastic games"
        "Mondays and Wednesdays, 4:00 PM - 5:30 PM"
        15 4]>
    (<["Swimming Team" := mkActivityObj
        "Competitive swimming with training and meets throughout the season"
        "Tuesdays and Thursdays, 4:00 PM - 5:30 PM"
        20 5]>
    (<["Drama Club" := mkActivityObj
        "Perform in school plays and develop acting and theatrical skills"
        "Thursdays, 3:30 PM - 5:00 PM"
        25 6]>
    (<["Art Club" := mkActivityObj
        "Explore various art mediums and create collaborative art projects"
        "Wednesdays, 3:30 PM - 5:00 PM"
        18 7]>
    (<["Debate Club" := mkActivityObj
        "Develop public speaking and argumentation skills through competitive debate"
        "Mondays and Fridays, 3:30 PM - 5:00 PM"
        16 8]>
    (<["Science Club" := mkActivityObj
        "Conduct experiments and explore scientific concepts through hands-on projects"
        "Tuesdays, 4:30 PM - 5:30 PM"
        20 9]>
    ∅)))))))))
    (<[1%positive := ["michael@mergington.edu"; "daniel@mergington.edu"]]>
    (<[2%positive := ["emma@mergington.edu"; "sophia@mergington.edu"]]>
    (<[3%positive := ["john@mergington.edu"; "olivia@mergington.edu"]]>
    (<[4%positive := ["alex@mergington.edu"]]>
    (<[5%positive := ["marcus@mergington.edu"; "jasmine@mergington.edu"]]>
    (<[6%positive := ["lucy@mergington.edu"]]>
    (<[7%positive := ["nina@mergington.edu"; "david@mergington.edu"]]>
    (<[8%positive := ["ryan@mergington.edu"]]>
    (<[9%positive := ["priya@mergington.edu"; "chris@mergington.edu"]]>
    ∅))))))))).

(** One step of the dictionary comprehension of [reset_activities]
    (tests/test_app.py, lines 17-25): a new dictionary for [name] with
    the three fields of [details] and a copy of its list, the copy being
    a new list object. *)
Definition copy_activity (name : string) (details : ActivityObj)
    (acc : gmap string ActivityObj * gmap loc (list string))
  : gmap string ActivityObj * gmap loc (list string) :=
  let l := fresh (dom (snd acc)) in
  (<[name := mkActivityObj (obj_description details) (obj_schedule details)
               (obj_max_participants details) l]> (fst acc),
   <[l := list_at (obj_participants details) (snd acc)]> (snd acc)).

(** [original_activities]: the comprehension over [activities.items()],
    with the list objects as they are after it. *)
Definition snapshot (st : Store) : gmap string ActivityObj * gmap loc (list string) :=
  map_fold copy_activity (∅, lists st) (table st).

(** [d.clear()] and [d.update(other)] on the table. *)
Definition dict_clear (d : gmap string ActivityObj) : gmap string ActivityObj := ∅.

Definition dict_update (d other : gmap string ActivityObj) : gmap string ActivityObj :=
  other ∪ d.

(** The fixture [reset_activities] around a test that sends the requests
    [rs]: the snapshot, the test, then [activities.clear()] and
    [activities.update(original_activities)]; the result is the store the
    next test starts from. *)
Definition reset_activities (rs : list Request) (st : Store) : Store :=
  let original_activities := snapshot st in
  let st' := run_obj rs (mkStore (table st) (snd original_activities)) in
  mkStore (dict_update (dict_clear (table st')) (fst original_activities)) (lists st').

(** The tests of tests/test_app.py run one after the other, each between
    the two halves of the fixture; a test is given by the requests it
    sends. *)
Fixpoint run_tests (tests : list (list Request)) (st : Store) : Store :=
  match tests with
  | [] => st
  | rs :: tests' => run_tests tests' (reset_activities rs st)
  end.

(** Every activity refers to a list object of the store. *)
Definition well_formed (st : Store) : Prop :=
  map_Forall (λ _ o, obj_participants o ∈ dom (lists st)) (table st).

(** No two activities refer to the same list object. *)
Definition no_sharing (t : gmap string ActivityObj) : Prop :=
  map_Forall (λ A a,
    map_Forall (λ B b, obj_participants a = obj_participants b → A = B) t) t.

(** What the comprehension has built after the activities [m], starting
    from the list objects [h0]: the old list objects are as they were,
    and every activity of [m] has a copy that refers to a new list object
    of its own with the contents of the old one. *)
Definition snapshot_of (h0 : gmap loc (list string)) (m : gmap string ActivityObj)
    (acc : gmap string ActivityObj * gmap loc (list string)) : Prop :=
  (∀ l, l ∈ dom h0 → snd acc !! l = h0 !! l)
  ∧ dom (fst acc) = dom m
  ∧ (∀ name o, m !! name = Some o →
       ∃ o', fst acc !! name = Some o'
         ∧ obj_description o' = obj_description o
         ∧ obj_schedule o' = obj_schedule o
         ∧ obj_max_participants o' = obj_max_participants o
         ∧ snd acc !! obj_participants o' = Some (list_at (obj_participants o) h0))
  ∧ (∀ name o', fst acc !! name = Some o' →
       obj_participants o' ∈ dom (snd acc) ∧ obj_participants o' ∉ dom h0)
  ∧ no_sharing (fst acc).

(** ** Sanity checks on concrete inputs *)

Example seed_chess :
  activities !! "Chess Club" =
  Some (mkActivity "Learn strategies and compete in chess tournaments"
          "Fridays, 3:30 PM - 5:00 PM" 12
          ["michael@mergington.edu"; "daniel@mergington.edu"]).
Proof. vm_compute. reflexivity. Qed.

Example signup_chess_fresh :
  fst (signup_for_activity "Chess Club" "test@x.edu" activities)
  = Return (mkMessage "Signed up test@x.edu for Chess Club").
Proof. vm_compute. reflexivity. Qed.

Example signup_chess_duplicate :
  fst (signup_for_activity "Chess Club" "michael@mergington.edu" activities)
  = Raise (mkHTTPException 400 "Already signed up for this activity").
Proof. vm_compute. reflexivity. Qed.

Example signup_unknown :
  fst (signup_for_activity "Nonexistent Club" "x@y.edu" activities)
  = Raise (mkHTTPException 404 "Activity not found").
Proof. vm_compute. reflexivity. Qed.

Example handle_signup_chess :
  fst (handle (signup_request "Chess Club" "test@x.edu") activities)
  = JSONMessage (mkMessage "Signed up test@x.edu for Chess Club").
Proof. vm_compute. reflexivity. Qed.

Example route_rejects_slash :
  has_slash "Chess Club" = false
  ∧ route POST ["activities"; "Chess Club"; "signup"] = Some (EpSignup "Chess Club")
  ∧ route POST ["activities"; "a/b"; "signup"] = None
  ∧ route POST ["activities"; ""; "signup"] = None.
Proof. split_and!; reflexivity. Qed.

Example contains_signed_up :
  str_contains "Signed up" "Signed up test@x.edu for Chess Club" = true.
Proof. reflexivity. Qed.

(** ** Basic facts about [signup_for_activity] *)

Section Signup.
Variables (acts : Directory) (activity_name email : string).

Lemma signup_unknown_activity :
  acts !! activity_name = None →
  signup_for_activity activity_name email acts
  = (Raise (mkHTTPException 404 "Activity not found"), acts).
Proof. intros Hnone. unfold signup_for_activity. by rewrite Hnone. Qed.

Lemma signup_already_member (activity : Activity) :
  acts !! activity_name = Some activity →
  email ∈ participants activity →
  signup_for_activity activity_name email acts
  = (Raise (mkHTTPException 400 "Already signed up for this activity"), acts).
Proof.
  intros Hsome Hin. unfold signup_for_activity. rewrite Hsome.
  by destruct (decide (email ∈ participants activity)).
Qed.

Lemma signup_new_member (activity : Activity) :
  acts !! activity_name = Some activity →
  email ∉ participants activity →
  signup_for_activity activity_name email acts
  = (Return (mkMessage ("Signed up " +:+ email +:+ " for " +:+ activity_name)),
     <[activity_name := append_participant email activity]> acts).
Proof.
  intros Hsome Hnotin. unfold signup_for_activity. rewrite Hsome.
  by destruct (decide (email ∈ participants activity)).
Qed.

(** The three branches are exhaustive and exclusive. *)
Lemma signup_cases :
  (acts !! activity_name = None ∧
   signup_for_activity activity_name email acts
   = (Raise (mkHTTPException 404 "Activity not found"), acts))
  ∨ (∃ activity, acts !! activity_name = Some activity ∧
       email ∈ participants activity ∧
       signup_for_activity activity_name email acts
       = (Raise (mkHTTPException 400 "Already signed up for this activity"), acts))
  ∨ (∃ activity, acts !! activity_name = Some activity ∧
       (email ∉ participants activity) ∧
       signup_for_activity activity_name email acts
       = (Return (mkMessage ("Signed up " +:+ email +:+ " for " +:+ activity_name)),
          <[activity_name := append_participant email activity]> acts)).
Proof.
  destruct (acts !! activity_name) as [activity|] eqn:Hlook.
  - destruct (decide (email ∈ participants activity)) as [Hin|Hnotin].
    + right; left. exists activity. eauto using signup_already_member.
    + right; right. exists activity. eauto using signup_new_member.
  - left. eauto using signup_unknown_activity.
Qed.
End Signup.

(** ** Requests: which of them change the table *)

Lemma unregister_request_unrouted (activity_name email : string) (acts : Directory) :
  handle (unregister_request activity_name email) acts = (NoHandler, acts).
Proof. reflexivity. Qed.

Lemma route_signup_inv (m : Method) (p : list string) (activity_name : string) :
  route m p = Some (EpSignup activity_name) →
  m = POST ∧ p = ["activities"; activity_name; "signup"].
Proof.
  unfold route. intros Hroute.
  destruct m; try discriminate;
    destruct p as [|s1 [|s2 [|s3 [|s4 p]]]]; try discriminate;
    repeat case_decide; try discriminate.
  destruct_and!. simplify_eq. done.
Qed.

(** A request either leaves the table as it is, or it is a signup that
    went through and appended one email to one activity. *)
Lemma handle_state (r : Request) (acts : Directory) :
  snd (handle r acts) = acts
  ∨ ∃ activity_name email activity,
      r = signup_request activity_name email ∧
      acts !! activity_name = Some activity ∧
      (email ∉ participants activity) ∧
      handle r acts
      = (JSONMessage (mkMessage ("Signed up " +:+ email +:+ " for " +:+ activity_name)),
         <[activity_name := append_participant email activity]> acts).
Proof.
  unfold handle.
  destruct (route (method r) (path r)) as [[| |activity_name]|] eqn:Hroute;
    [by left | by left | | by left].
  destruct (email_param r) as [email|] eqn:Hemail; [|by left].
  destruct (signup_cases acts activity_name email)
    as [[_ ->]|[(activity & _ & _ & ->)|(activity & Hlook & Hnotin & ->)]];
    [by left | by left |].
  right. exists activity_name, email, activity.
  apply route_signup_inv in Hroute as [Hm Hp].
  destruct r as [m p q]; simpl in *; subst. done.
Qed.

(** Every request is of one of two kinds: it is not answered with a
    confirmation and leaves the table as it is, or it is an accepted
    signup. *)
Lemma handle_cases (r : Request) (acts : Directory) :
  (snd (handle r acts) = acts ∧ ∀ m, fst (handle r acts) ≠ JSONMessage m)
  ∨ ∃ activity_name email activity,
      r = signup_request activity_name email ∧
      activity_name ≠ "" ∧
      acts !! activity_name = Some activity ∧
      (email ∉ participants activity) ∧
      handle r acts
      = (JSONMessage (mkMessage ("Signed up " +:+ email +:+ " for " +:+ activity_name)),
         <[activity_name := append_participant email activity]> acts).
Proof.
  unfold handle.
  destruct (route (method r) (path r)) as [[| |activity_name]|] eqn:Hroute;
    [by left | by left | | by left].
  destruct (email_param r) as [email|] eqn:Hemail; [|by left].
  destruct (signup_cases acts activity_name email)
    as [[_ ->]|[(activity & _ & _ & ->)|(activity & Hlook & Hnotin & ->)]];
    [by left | by left |].
  right. exists activity_name, email, activity.
  assert (activity_name ≠ "") as Hname.
  { unfold route in Hroute.
    destruct (method r); try discriminate;
      destruct (path r) as [|s1 [|s2 [|s3 [|s4 p]]]]; try discriminate;
      repeat case_decide; try discriminate.
    destruct_and!. by simplify_eq. }
  apply route_signup_inv in Hroute as [Hm Hp].
  destruct r as [m p q]; simpl in *; subst. done.
Qed.

(** ** Strings: the confirmation message *)

Lemma prefix_append (x s : string) : String.prefix x (x +:+ s) = true.
Proof.
  induction x as [|c x IH]; simpl.
  - by destruct s.
  - by destruct (Ascii.ascii_dec c c).
Qed.

Lemma prefix_refl (x : string) : String.prefix x x = true.
Proof.
  induction x as [|c x IH]; simpl; [done|].
  by destruct (Ascii.ascii_dec c c).
Qed.

Lemma str_contains_prefix (x s : string) :
  String.prefix x s = true → str_contains x s = true.
Proof. intros Hpre. destruct s; cbn [str_contains]; by rewrite Hpre. Qed.

Lemma str_contains_append_l (a x s : string) :
  str_contains x s = true → str_contains x (a +:+ s) = true.
Proof.
  intros Hin. induction a as [|c a IH]; [done|].
  change (String c a +:+ s) with (String c (a +:+ s)).
  cbn [str_contains]. rewrite IH. apply orb_true_r.
Qed.

Lemma message_embeds (email activity_name : string) :
  let msg := "Signed up " +:+ email +:+ " for " +:+ activity_name in
  str_contains "Signed up" msg = true
  ∧ str_contains email msg = true
  ∧ str_contains activity_name msg = true.
Proof.
  cbv zeta. split_and!.
  - apply str_contains_prefix. reflexivity.
  - apply (str_contains_append_l "Signed up "), str_contains_prefix, prefix_append.
  - apply (str_contains_append_l "Signed up "), str_contains_append_l.
    apply (str_contains_append_l " for "), str_contains_prefix, prefix_refl.
Qed.

(** ** The table along a sequence of requests *)

Lemma append_participant_NoDup (email : string) (activity : Activity) :
  NoDup (participants activity) →
  email ∉ participants activity →
  NoDup (participants (append_participant email activity)).
Proof.
  intros Hnodup Hnotin. simpl. apply NoDup_app. split_and!; [done| |apply NoDup_singleton].
  intros x Hx ->%list_elem_of_singleton. done.
Qed.

Lemma handle_no_duplicates (r : Request) (acts : Directory) :
  no_duplicates acts → no_duplicates (snd (handle r acts)).
Proof.
  intros Hinv.
  destruct (handle_state r acts) as [->|(A & e & act & _ & Hlook & Hnotin & ->)]; [done|].
  simpl. apply map_Forall_insert_2; [|done].
  apply append_participant_NoDup; [|done].
  by apply (map_Forall_lookup_1 _ _ _ _ Hinv Hlook).
Qed.

Lemma run_no_duplicates (rs : list Request) (acts : Directory) :
  no_duplicates acts → no_duplicates (run rs acts).
Proof.
  revert acts. induction rs as [|r rs IH]; intros acts Hinv; simpl; [done|].
  by apply IH, handle_no_duplicates.
Qed.

Lemma seed_no_duplicates : no_duplicates activities.
Proof.
  unfold activities.
  repeat (apply map_Forall_insert_2;
          [apply (bool_decide_unpack _); vm_compute; exact I|]).
  apply map_Forall_empty.
Qed.

(** An activity of the table stays in the table; only its participants
    change, and only by growing at the end. *)
Lemma handle_lookup (r : Request) (acts : Directory) (A : string) (act : Activity) :
  acts !! A = Some act →
  ∃ act', snd (handle r acts) !! A = Some act'
    ∧ participants act `prefix_of` participants act'.
Proof.
  intros Hlook.
  destruct (handle_state r acts) as [->|(A' & e & act0 & _ & Hlook0 & _ & ->)];
    [by exists act|].
  simpl. destruct (decide (A' = A)) as [->|Hne].
  - rewrite lookup_insert_eq. eexists; split; [done|].
    simplify_eq. simpl. by apply prefix_app_r.
  - rewrite lookup_insert_ne by done. by exists act.
Qed.

Lemma run_lookup (rs : list Request) (acts : Directory) (A : string) (act : Activity) :
  acts !! A = Some act →
  ∃ act', run rs acts !! A = Some act'
    ∧ participants act `prefix_of` participants act'.
Proof.
  revert acts act. induction rs as [|r rs IH]; intros acts act Hlook; simpl.
  - by exists act.
  - destruct (handle_lookup r acts A act Hlook) as (act1 & Hlook1 & Hpre1).
    destruct (IH _ _ Hlook1) as (act2 & Hlook2 & Hpre2).
    exists act2. split; [done|]. by etrans.
Qed.


(** ** The specification's claims *)

(** C1. The specification describes an operation unregister(activityName,
    email) that removes the email from the activity. app.py registers no
    such route: the request
    [DELETE /activities/Chess Club/unregister?email=michael@mergington.edu]
    on the seeded table reaches no handler, the table stays as it was and
    the email is still a participant of "Chess Club". *)
Theorem unregister_not_served :
  handle (unregister_request "Chess Club" "michael@mergington.edu") activities
  = (NoHandler, activities)
  ∧ "michael@mergington.edu"
    ∈ participants_of "Chess Club"
        (snd (handle (unregister_request "Chess Club" "michael@mergington.edu")
                activities)).
Proof.
  split; [apply unregister_request_unrouted|].
  rewrite unregister_request_unrouted. simpl.
  assert (participants_of "Chess Club" activities
          = ["michael@mergington.edu"; "daniel@mergington.edu"]) as ->
    by (vm_compute; reflexivity).
  apply list_elem_of_here.
Qed.

(** C2. signup(A, e) raises the 404 exception with detail "Activity not
    found" exactly when A is not a key of the table, raises the 400
    exception with detail "Already signed up for this activity" exactly
    when A is a key and e is among A's participants, and returns
    otherwise; it raises nothing else. *)
Theorem signup_failure_modes (acts : Directory) (A e : string) :
  (fst (signup_for_activity A e acts)
   = Raise (mkHTTPException 404 "Activity not found")
   ↔ acts !! A = None)
  ∧ (fst (signup_for_activity A e acts)
     = Raise (mkHTTPException 400 "Already signed up for this activity")
     ↔ ∃ act, acts !! A = Some act ∧ e ∈ participants act)
  ∧ ((∃ m, fst (signup_for_activity A e acts) = Return m)
     ↔ ∃ act, acts !! A = Some act ∧ e ∉ participants act)
  ∧ (∀ ex, fst (signup_for_activity A e acts) = Raise ex →
       (status_code ex = 404 ∧ detail ex = "Activity not found")
       ∨ (status_code ex = 400 ∧ detail ex = "Already signed up for this activity")).
Proof.
  destruct (signup_cases acts A e)
    as [[Hlook ->]|[(act & Hlook & Hin & ->)|(act & Hlook & Hnotin & ->)]]; simpl.
  - split_and!.
    + done.
    + split; [discriminate|]. intros (act & ? & _). congruence.
    + split; [intros [m ?]; discriminate|]. intros (act & ? & _). congruence.
    + intros ex [= <-]. by left.
  - split_and!.
    + split; [discriminate|congruence].
    + split; [|done]. intros _. by exists act.
    + split; [intros [m ?]; discriminate|].
      intros (act' & ? & ?). by simplify_eq.
    + intros ex [= <-]. by right.
  - split_and!.
    + split; [discriminate|congruence].
    + split; [discriminate|]. intros (act' & ? & ?). by simplify_eq.
    + split; [|by eauto]. intros _. by exists act.
    + intros ex [=].
Qed.

Lemma signup_failure_modes_witness :
  fst (signup_for_activity "Nonexistent Club" "x@y.edu" activities)
  = Raise (mkHTTPException 404 "Activity not found")
  ∧ fst (signup_for_activity "Chess Club" "michael@mergington.edu" activities)
    = Raise (mkHTTPException 400 "Already signed up for this activity")
  ∧ ∃ m, fst (signup_for_activity "Chess Club" "test@x.edu" activities) = Return m.
Proof.
  split_and!.
  - apply (signup_failure_modes activities "Nonexistent Club" "x@y.edu").
    vm_compute. reflexivity.
  - apply (signup_failure_modes activities "Chess Club" "michael@mergington.edu").
    exists (mkActivity "Learn strategies and compete in chess tournaments"
              "Fridays, 3:30 PM - 5:00 PM" 12
              ["michael@mergington.edu"; "daniel@mergington.edu"]).
    split; [vm_compute; reflexivity|apply list_elem_of_here].
  - apply (signup_failure_modes activities "Chess Club" "test@x.edu").
    exists (mkActivity "Learn strategies and compete in chess tournaments"
              "Fridays, 3:30 PM - 5:00 PM" 12
              ["michael@mergington.edu"; "daniel@mergington.edu"]).
    split; [vm_compute; reflexivity|].
    apply (bool_decide_unpack _). vm_compute. exact I.
Defined.

(** C3. When A is in the table and e is not among A's participants,
    signup(A, e) returns the message "Signed up {e} for {A}", which
    contains both e and A, and the table afterwards maps A to the same
    activity with e added after the participants it had, in their order.
    Nothing is assumed on max_participants: the signup goes through
    whatever the number of participants. *)
Theorem signup_appends (acts : Directory) (A e : string) (act : Activity) :
  acts !! A = Some act →
  e ∉ participants act →
  ∃ msg,
    signup_for_activity A e acts
    = (Return (mkMessage msg),
       <[A := mkActivity (description act) (schedule act) (max_participants act)
                (participants act ++ [e])]> acts)
    ∧ msg = "Signed up " +:+ e +:+ " for " +:+ A
    ∧ str_contains e msg = true
    ∧ str_contains A msg = true.
Proof.
  intros Hlook Hnotin. eexists. split; [by apply signup_new_member|].
  split; [done|]. apply message_embeds.
Qed.

Lemma signup_appends_witness :
  let full := mkActivity "Chess" "Fridays" 2 ["a@x.edu"; "b@x.edu"; "c@x.edu"] in
  max_participants full ≤ Z.of_nat (length (participants full))
  ∧ ∃ msg,
      signup_for_activity "Chess Club" "d@x.edu" {["Chess Club" := full]}
      = (Return (mkMessage msg),
         <["Chess Club" := mkActivity "Chess" "Fridays" 2
                             ["a@x.edu"; "b@x.edu"; "c@x.edu"; "d@x.edu"]]>
           {["Chess Club" := full]})
      ∧ msg = "Signed up d@x.edu for Chess Club"
      ∧ str_contains "d@x.edu" msg = true
      ∧ str_contains "Chess Club" msg = true.
Proof.
  intros full. split; [vm_compute; discriminate|].
  apply (signup_appends {["Chess Club" := full]} "Chess Club" "d@x.edu" full).
  - apply lookup_singleton_eq.
  - apply (bool_decide_unpack _). vm_compute. exact I.
Defined.



(** The same on the seeded table, request by request: a signup, a request
    to the unregister path, the signup again; and a request to the
    unregister path for a seeded participant, then a signup. *)
Example signup_after_unregister_refused :
  fst (handle (signup_request "Chess Club" "test@x.edu") activities)
  = JSONMessage (mkMessage "Signed up test@x.edu for Chess Club")
  ∧ fst (handle (unregister_request "Chess Club" "test@x.edu")
           (run [signup_request "Chess Club" "test@x.edu"] activities))
    = NoHandler
  ∧ fst (handle (signup_request "Chess Club" "test@x.edu")
           (run [signup_request "Chess Club" "test@x.edu";
                 unregister_request "Chess Club" "test@x.edu"] activities))
    = JSONError (mkHTTPException 400 "Already signed up for this activity")
  ∧ fst (handle (signup_request "Chess Club" "michael@mergington.edu")
           (run [unregister_request "Chess Club" "michael@mergington.edu"] activities))
    = JSONError (mkHTTPException 400 "Already signed up for this activity").
Proof. split_and!; vm_compute; reflexivity. Qed.

(** C5. list() returns the whole table: every activity of the table is in
    the returned mapping under its name with the description, schedule,
    max_participants and participants it has in the table, nothing else
    is in it, and the table after the call is the table before it. *)
Theorem get_activities_full (acts : Directory) :
  handle list_request acts = (JSONActivities (fst (get_activities acts)), acts)
  ∧ snd (get_activities acts) = acts
  ∧ dom (fst (get_activities acts)) = dom acts
  ∧ ∀ A act, acts !! A = Some act →
      ∃ act', fst (get_activities acts) !! A = Some act'
        ∧ description act' = description act
        ∧ schedule act' = schedule act
        ∧ max_participants act' = max_participants act
        ∧ participants act' = participants act.
Proof.
  split_and!; try done. intros A act Hlook. by exists act.
Qed.

Lemma get_activities_full_witness :
  snd (get_activities activities) = activities
  ∧ ∃ act', fst (get_activities activities) !! "Chess Club" = Some act'
      ∧ description act' = "Learn strategies and compete in chess tournaments"
      ∧ schedule act' = "Fridays, 3:30 PM - 5:00 PM"
      ∧ max_participants act' = 12
      ∧ participants act' = ["michael@mergington.edu"; "daniel@mergington.edu"].
Proof.
  destruct (get_activities_full activities) as (_ & Hsame & _ & Hact).
  split; [exact Hsame|].
  apply (Hact "Chess Club"
           (mkActivity "Learn strategies and compete in chess tournaments"
              "Fridays, 3:30 PM - 5:00 PM" 12
              ["michael@mergington.edu"; "daniel@mergington.edu"])).
  vm_compute. reflexivity.
Defined.

(** C6. A signup that raises leaves the table exactly as it was; so does
    every request answered with an error or reaching no handler, which
    covers requests to the unregister path; and a request after which the
    table differs was answered with the signup confirmation, so the
    append comes after both checks. *)
Theorem failure_leaves_table_unchanged (acts : Directory) :
  (∀ A e ex, fst (signup_for_activity A e acts) = Raise ex →
             snd (signup_for_activity A e acts) = acts)
  ∧ (∀ r, is_failure (fst (handle r acts)) = true → snd (handle r acts) = acts)
  ∧ (∀ r, snd (handle r acts) ≠ acts → ∃ m, fst (handle r acts) = JSONMessage m).
Proof.
  split_and!.
  - intros A e ex.
    destruct (signup_cases acts A e)
      as [[_ ->]|[(act & _ & _ & ->)|(act & _ & _ & ->)]]; simpl; [done|done|].
    discriminate.
  - intros r.
    destruct (handle_state r acts) as [->|(A & e & act & _ & _ & _ & ->)]; [done|].
    simpl. discriminate.
  - intros r.
    destruct (handle_state r acts) as [->|(A & e & act & _ & _ & _ & ->)]; [done|].
    simpl. eauto.
Qed.

Lemma failure_leaves_table_unchanged_witness :
  snd (signup_for_activity "Chess Club" "michael@mergington.edu" activities) = activities
  ∧ snd (signup_for_activity "Nonexistent Club" "x@y.edu" activities) = activities
  ∧ snd (handle (unregister_request "Chess Club" "nobody@x.edu") activities) = activities.
Proof.
  destruct (failure_leaves_table_unchanged activities) as (Hsignup & Hhandle & _).
  split_and!.
  - apply (Hsignup _ _ (mkHTTPException 400 "Already signed up for this activity")).
    vm_compute. reflexivity.
  - apply (Hsignup _ _ (mkHTTPException 404 "Activity not found")).
    vm_compute. reflexivity.
  - apply Hhandle. reflexivity.
Defined.

(** C7. In the seeded table and after every sequence of requests served
    from it (signups, listings, requests to the unregister path and any
    other), no activity of the table lists an email twice. *)
Theorem no_duplicate_participants (rs : list Request) (A : string) (act : Activity) :
  run rs activities !! A = Some act → NoDup (participants act).
Proof.
  intros Hlook.
  exact (map_Forall_lookup_1 _ _ _ _
           (run_no_duplicates rs activities seed_no_duplicates) Hlook).
Qed.

Lemma no_duplicate_participants_witness :
  NoDup ["michael@mergington.edu"; "daniel@mergington.edu"; "test@x.edu"].
Proof.
  apply (no_duplicate_participants
           [signup_request "Chess Club" "test@x.edu";
            signup_request "Chess Club" "test@x.edu";
            unregister_request "Chess Club" "daniel@mergington.edu";
            list_request]
           "Chess Club"
           (mkActivity "Learn strategies and compete in chess tournaments"
              "Fridays, 3:30 PM - 5:00 PM" 12
              ["michael@mergington.edu"; "daniel@mergington.edu"; "test@x.edu"])).
  vm_compute. reflexivity.
Defined.

(** C8. The result of signup(A, e) is the same in any two tables that
    agree on whether A is a key and on A's participants. So when e is a
    participant of another activity B, signup(A, e) is answered as if B
    were not there: with e not among A's participants it goes through,
    and afterwards e is a participant of both A and B. *)
Theorem signup_no_cross_activity (acts : Directory) (A B e : string)
    (actA actB : Activity) :
  A ≠ B →
  acts !! A = Some actA →
  acts !! B = Some actB →
  e ∈ participants actB →
  (∀ acts' : Directory,
     participants <$> (acts' !! A) = participants <$> (acts !! A) →
     fst (signup_for_activity A e acts') = fst (signup_for_activity A e acts))
  ∧ (e ∉ participants actA →
     fst (signup_for_activity A e acts)
     = Return (mkMessage ("Signed up " +:+ e +:+ " for " +:+ A))
     ∧ e ∈ participants_of A (snd (signup_for_activity A e acts))
     ∧ e ∈ participants_of B (snd (signup_for_activity A e acts))).
Proof.
  intros Hne HA HB HinB. split.
  - intros acts' Hsame. rewrite HA in Hsame. unfold signup_for_activity.
    rewrite HA. destruct (acts' !! A) as [actA'|]; [|done].
    simpl in Hsame. injection Hsame as ->.
    by destruct (decide (e ∈ participants actA)).
  - intros HnotinA. rewrite (signup_new_member acts A e actA HA HnotinA). simpl.
    unfold participants_of. rewrite lookup_insert_eq.
    rewrite lookup_insert_ne by done. rewrite HB. simpl.
    split_and!; [done| |done]. set_solver.
Qed.

Lemma signup_no_cross_activity_witness :
  fst (signup_for_activity "Chess Club" "emma@mergington.edu" activities)
  = Return (mkMessage "Signed up emma@mergington.edu for Chess Club")
  ∧ "emma@mergington.edu"
    ∈ participants_of "Chess Club"
        (snd (signup_for_activity "Chess Club" "emma@mergington.edu" activities))
  ∧ "emma@mergington.edu"
    ∈ participants_of "Programming Class"
        (snd (signup_for_activity "Chess Club" "emma@mergington.edu" activities)).
Proof.
  refine (proj2 (signup_no_cross_activity activities
                   "Chess Club" "Programming Class" "emma@mergington.edu"
                   (mkActivity "Learn strategies and compete in chess tournaments"
                      "Fridays, 3:30 PM - 5:00 PM" 12
                      ["michael@mergington.edu"; "daniel@mergington.edu"])
                   (mkActivity "Learn programming fundamentals and build software projects"
                      "Tuesdays and Thursdays, 3:30 PM - 4:30 PM" 20
                      ["emma@mergington.edu"; "sophia@mergington.edu"])
                   _ _ _ _) _).
  - discriminate.
  - vm_compute. reflexivity.
  - vm_compute. reflexivity.
  - apply (bool_decide_unpack _). vm_compute. exact I.
  - apply (bool_decide_unpack _). vm_compute. exact I.
Defined.

(** C9. In the seeded table "Chess Club" has the participants
    michael@mergington.edu and daniel@mergington.edu, in this order;
    signup("Chess Club", "test@x.edu") on it returns a message that
    contains "Signed up", and afterwards "Chess Club" has three
    participants. *)
Theorem seed_scenario_signup :
  participants_of "Chess Club" activities
  = ["michael@mergington.edu"; "daniel@mergington.edu"]
  ∧ (∃ m, fst (signup_for_activity "Chess Club" "test@x.edu" activities) = Return m
          ∧ str_contains "Signed up" (message m) = true)
  ∧ (∃ m, fst (handle (signup_request "Chess Club" "test@x.edu") activities)
          = JSONMessage m
          ∧ str_contains "Signed up" (message m) = true)
  ∧ length (participants_of "Chess Club"
              (snd (signup_for_activity "Chess Club" "test@x.edu" activities))) = 3%nat.
Proof.
  split_and!.
  - vm_compute. reflexivity.
  - eexists (mkMessage "Signed up test@x.edu for Chess Club").
    split; vm_compute; reflexivity.
  - eexists (mkMessage "Signed up test@x.edu for Chess Club").
    split; vm_compute; reflexivity.
  - vm_compute. reflexivity.
Qed.

(** C10. The handlers app.py registers are the redirect, the listing and
    the signup; none of them removes an email, and a request after which
    the table differs is a signup request. So along every sequence of
    requests an activity of the table stays in the table, every email
    that was among its participants still is, and the number of its
    participants does not go down. *)
Theorem participants_never_removed (rs : list Request) (acts : Directory)
    (A : string) (act : Activity) :
  acts !! A = Some act →
  (∀ r, snd (handle r acts) ≠ acts → ∃ A' e', r = signup_request A' e')
  ∧ ∃ act', run rs acts !! A = Some act'
      ∧ (∀ e, e ∈ participants act → e ∈ participants act')
      ∧ (length (participants act) ≤ length (participants act'))%nat.
Proof.
  intros Hlook. split.
  - intros r Hchanged.
    destruct (handle_state r acts) as [Hsame|(A' & e' & _ & -> & _)]; [done|eauto].
  - destruct (run_lookup rs acts A act Hlook) as (act' & Hlook' & Hpre).
    exists act'. split_and!; [done| |by apply prefix_length].
    intros e Hin. destruct Hpre as [k ->]. set_solver.
Qed.

Lemma participants_never_removed_witness :
  ∃ act',
    run [unregister_request "Chess Club" "michael@mergington.edu";
         signup_request "Chess Club" "test@x.edu"] activities !! "Chess Club"
    = Some act'
    ∧ (∀ e, e ∈ ["michael@mergington.edu"; "daniel@mergington.edu"] →
            e ∈ participants act')
    ∧ (2 ≤ length (participants act'))%nat.
Proof.
  refine (proj2 (participants_never_removed
                   [unregister_request "Chess Club" "michael@mergington.edu";
                    signup_request "Chess Club" "test@x.edu"]
                   activities "Chess Club"
                   (mkActivity "Learn strategies and compete in chess tournaments"
                      "Fridays, 3:30 PM - 5:00 PM" 12
                      ["michael@mergington.edu"; "daniel@mergington.edu"])
                   _)).
  vm_compute. reflexivity.
Defined.

(** ** Further properties of the handlers *)

Lemma handle_signup_request (A e : string) (acts : Directory) :
  A ≠ "" →
  has_slash A = false →
  handle (signup_request A e) acts
  = match signup_for_activity A e acts with
    | (Return m, acts') => (JSONMessage m, acts')
    | (Raise ex, acts') => (JSONError ex, acts')
    end.
Proof.
  intros Hname Hslash. unfold handle, signup_request, route. simpl.
  case_decide as Hdec; [done|]. destruct Hdec. done.
Qed.

Lemma participants_of_insert (A : string) (act : Activity) (acts : Directory) :
  participants_of A (<[A := act]> acts) = participants act.
Proof. unfold participants_of. by rewrite lookup_insert_eq. Qed.

Lemma participants_of_insert_ne (A B : string) (act : Activity) (acts : Directory) :
  A ≠ B → participants_of B (<[A := act]> acts) = participants_of B acts.
Proof. intros Hne. unfold participants_of. by rewrite lookup_insert_ne. Qed.

Lemma accepted_email_signup (A A' e : string) (m : Message) :
  accepted_email A (signup_request A' e) (JSONMessage m)
  = if decide (A' = A) then Some e else None.
Proof. reflexivity. Qed.

Lemma accepted_email_not_confirmed (A : string) (r : Request) (resp : Response) :
  (∀ m, resp ≠ JSONMessage m) → accepted_email A r resp = None.
Proof. intros Hresp. destruct resp; try done. by destruct (Hresp body). Qed.

(** X1. The participants of an activity after a sequence of requests are
    the participants it had before, followed by the emails of the signups
    for it that were accepted, in the order of the requests (an activity
    that is not in the table has none before and none after). *)
Theorem participants_history (A : string) (rs : list Request) (acts : Directory) :
  participants_of A (run rs acts)
  = participants_of A acts ++ accepted_emails A rs acts.
Proof.
  revert acts. induction rs as [|r rs IH]; intros acts; simpl.
  - by rewrite app_nil_r.
  - rewrite IH.
    destruct (handle_cases r acts)
      as [[-> Hresp]|(A' & e & act & -> & _ & Hlook & _ & ->)].
    + by rewrite (accepted_email_not_confirmed _ _ _ Hresp).
    + cbn [fst snd]. rewrite accepted_email_signup.
      destruct (decide (A' = A)) as [->|Hne].
      * rewrite participants_of_insert. unfold participants_of.
        rewrite Hlook. simpl. by rewrite <-app_assoc.
      * by rewrite participants_of_insert_ne.
Qed.

(** X2. Along any sequence of requests a signup of the email e for the
    activity A is accepted at most once, and never when e was among A's
    participants at the start: the accepted emails of A are pairwise
    distinct and none of them was a participant of A before. *)
Theorem signup_accepted_at_most_once (A : string) (rs : list Request) (acts : Directory) :
  NoDup (accepted_emails A rs acts)
  ∧ ∀ e, e ∈ accepted_emails A rs acts → e ∉ participants_of A acts.
Proof.
  revert acts. induction rs as [|r rs IH]; intros acts; simpl.
  - split; [constructor|]. intros e Hin. by apply elem_of_nil in Hin.
  - destruct (handle_cases r acts)
      as [[-> Hresp]|(A' & e & act & -> & _ & Hlook & Hnotin & ->)].
    + rewrite (accepted_email_not_confirmed _ _ _ Hresp). apply IH.
    + cbn [fst snd]. rewrite accepted_email_signup.
      destruct (IH (<[A' := append_participant e act]> acts)) as [Hnodup Hfresh].
      destruct (decide (A' = A)) as [->|Hne].
      * rewrite participants_of_insert in Hfresh. simpl in Hfresh.
        assert (participants_of A acts = participants act) as ->
          by (unfold participants_of; by rewrite Hlook).
        split.
        -- constructor; [|done]. intros Hin. apply (Hfresh e Hin).
           apply elem_of_app. right. by apply list_elem_of_singleton.
        -- intros x [->|Hin]%elem_of_cons; [done|].
           intros Hx. apply (Hfresh x Hin). apply elem_of_app. by left.
      * rewrite participants_of_insert_ne in Hfresh by done. done.
Qed.

Lemma handle_keeps_activity (r : Request) (acts : Directory) (B : string) (b : Activity) :
  acts !! B = Some b →
  ∃ b', snd (handle r acts) !! B = Some b'
    ∧ description b' = description b
    ∧ schedule b' = schedule b
    ∧ max_participants b' = max_participants b.
Proof.
  intros Hlook.
  destruct (handle_state r acts) as [->|(A' & e & act0 & _ & Hlook0 & _ & ->)];
    [by exists b|].
  simpl. destruct (decide (A' = B)) as [->|Hne].
  - rewrite lookup_insert_eq. eexists; split; [done|]. by simplify_eq.
  - rewrite lookup_insert_ne by done. by exists b.
Qed.

Lemma handle_dom (r : Request) (acts : Directory) :
  dom (snd (handle r acts)) = dom acts.
Proof.
  destruct (handle_state r acts) as [->|(A' & e & act0 & _ & Hlook0 & _ & ->)]; [done|].
  simpl. by apply dom_insert_lookup_L.
Qed.

Lemma run_dom (rs : list Request) (acts : Directory) :
  dom (run rs acts) = dom acts.
Proof.
  revert acts. induction rs as [|r rs IH]; intros acts; simpl; [done|].
  by rewrite IH, handle_dom.
Qed.

Lemma run_keeps_activity (rs : list Request) (acts : Directory)
    (B : string) (b : Activity) :
  acts !! B = Some b →
  ∃ b', run rs acts !! B = Some b'
    ∧ description b' = description b
    ∧ schedule b' = schedule b
    ∧ max_participants b' = max_participants b.
Proof.
  revert acts b. induction rs as [|r rs IH]; intros acts b Hlook; simpl.
  - by exists b.
  - destruct (handle_keeps_activity r acts B b Hlook) as (b1 & Hlook1 & Hd & Hs & Hm).
    destruct (IH _ _ Hlook1) as (b2 & Hlook2 & Hd2 & Hs2 & Hm2).
    exists b2. split_and!; [done|congruence..].
Qed.

(** X3. No sequence of requests adds or removes an activity, whatever
    the table, the empty one included: the table keeps its keys. And
    none changes the description, the schedule or max_participants of an
    activity of the table. *)
Theorem activities_are_fixed (rs : list Request) (acts : Directory) :
  dom (run rs acts) = dom acts
  ∧ ∀ B b, acts !! B = Some b →
      ∃ b', run rs acts !! B = Some b'
        ∧ description b' = description b
        ∧ schedule b' = schedule b
        ∧ max_participants b' = max_participants b.
Proof.
  split; [apply run_dom|]. intros B b. apply run_keeps_activity.
Qed.

Lemma activities_are_fixed_witness :
  ∃ b', run [signup_request "Chess Club" "test@x.edu";
             unregister_request "Chess Club" "michael@mergington.edu";
             signup_request "Gym Class" "test@x.edu"] activities !! "Chess Club"
        = Some b'
    ∧ description b' = "Learn strategies and compete in chess tournaments"
    ∧ schedule b' = "Fridays, 3:30 PM - 5:00 PM"
    ∧ max_participants b' = 12.
Proof.
  refine (proj2 (activities_are_fixed
                   [signup_request "Chess Club" "test@x.edu";
                    unregister_request "Chess Club" "michael@mergington.edu";
                    signup_request "Gym Class" "test@x.edu"]
                   activities)
            "Chess Club"
            (mkActivity "Learn strategies and compete in chess tournaments"
               "Fridays, 3:30 PM - 5:00 PM" 12
               ["michael@mergington.edu"; "daniel@mergington.edu"])
            _).
  vm_compute. reflexivity.
Defined.

(** X4. On an activity of the table, signing the same email up a second
    time is refused with the 400 error and changes nothing more, whether
    the first call was accepted or refused; after the first call the
    email is among the participants. *)
Theorem signup_twice (acts : Directory) (A e : string) (act : Activity) :
  acts !! A = Some act →
  e ∈ participants_of A (snd (signup_for_activity A e acts))
  ∧ signup_for_activity A e (snd (signup_for_activity A e acts))
    = (Raise (mkHTTPException 400 "Already signed up for this activity"),
       snd (signup_for_activity A e acts)).
Proof.
  intros Hlook. destruct (decide (e ∈ participants act)) as [Hin|Hnotin].
  - rewrite (signup_already_member acts A e act Hlook Hin). simpl.
    split; [|by apply (signup_already_member acts A e act)].
    unfold participants_of. by rewrite Hlook.
  - rewrite (signup_new_member acts A e act Hlook Hnotin). simpl.
    assert (e ∈ participants (append_participant e act)) as Hin.
    { simpl. apply elem_of_app. right. by apply list_elem_of_singleton. }
    split; [by rewrite participants_of_insert|].
    apply (signup_already_member _ _ _ (append_participant e act)); [|done].
    apply lookup_insert_eq.
Qed.

Lemma signup_twice_witness :
  "test@x.edu"
  ∈ participants_of "Chess Club"
      (snd (signup_for_activity "Chess Club" "test@x.edu" activities))
  ∧ signup_for_activity "Chess Club" "test@x.edu"
      (snd (signup_for_activity "Chess Club" "test@x.edu" activities))
    = (Raise (mkHTTPException 400 "Already signed up for this activity"),
       snd (signup_for_activity "Chess Club" "test@x.edu" activities)).
Proof.
  apply (signup_twice activities "Chess Club" "test@x.edu"
           (mkActivity "Learn strategies and compete in chess tournaments"
              "Fridays, 3:30 PM - 5:00 PM" 12
              ["michael@mergington.edu"; "daniel@mergington.edu"])).
  vm_compute. reflexivity.
Defined.

Lemma run_signup_list (es : list string) (acts : Directory) (A : string)
    (act : Activity) :
  A ≠ "" →
  has_slash A = false →
  acts !! A = Some act →
  NoDup es →
  (∀ e, e ∈ es → e ∉ participants act) →
  run (signup_request A <$> es) acts
  = <[A := mkActivity (description act) (schedule act) (max_participants act)
             (participants act ++ es)]> acts.
Proof.
  intros Hname Hslash. revert acts act.
  induction es as [|e es IH]; intros acts act Hlook Hnodup Hfresh; simpl.
  - rewrite app_nil_r. symmetry. apply insert_id. by destruct act.
  - apply NoDup_cons in Hnodup as [Hhead Htail].
    rewrite (handle_signup_request A e acts Hname Hslash).
    rewrite (signup_new_member acts A e act Hlook)
      by (apply Hfresh, elem_of_cons; by left).
    cbn [snd].
    rewrite (IH _ (append_participant e act)); [| |done|].
    + rewrite insert_insert_eq. simpl. by rewrite <-app_assoc.
    + apply lookup_insert_eq.
    + intros x Hx. simpl. intros [Hold|Hnew]%elem_of_app.
      * apply (Hfresh x); [|done]. apply elem_of_cons. by right.
      * apply list_elem_of_singleton in Hnew. by subst.
Qed.

(** X5. Let A be an activity of the table whose name can stand in the
    path of a request: it is not empty and holds no slash. Signing up,
    one after the other, emails that are pairwise distinct and not yet
    participants of A adds them to A's participants in the order of the
    requests and changes nothing else in the table. *)
Theorem signups_in_order (es : list string) (acts : Directory) (A : string)
    (act : Activity) :
  A ≠ "" →
  has_slash A = false →
  acts !! A = Some act →
  NoDup es →
  (∀ e, e ∈ es → e ∉ participants act) →
  run (signup_request A <$> es) acts
  = <[A := mkActivity (description act) (schedule act) (max_participants act)
             (participants act ++ es)]> acts
  ∧ participants_of A (run (signup_request A <$> es) acts) = participants act ++ es
  ∧ ∀ B, B ≠ A → run (signup_request A <$> es) acts !! B = acts !! B.
Proof.
  intros Hname Hslash Hlook Hnodup Hfresh.
  rewrite (run_signup_list es acts A act Hname Hslash Hlook Hnodup Hfresh).
  split_and!; [done|by rewrite participants_of_insert|].
  intros B Hne. by rewrite lookup_insert_ne.
Qed.

Lemma signups_in_order_witness :
  run [signup_request "Drama Club" "a@x.edu"; signup_request "Drama Club" "b@x.edu"]
    activities
  = <["Drama Club" := mkActivity
        "Perform in school plays and develop acting and theatrical skills"
        "Thursdays, 3:30 PM - 5:00 PM" 25
        ["lucy@mergington.edu"; "a@x.edu"; "b@x.edu"]]> activities.
Proof.
  refine (proj1 (signups_in_order ["a@x.edu"; "b@x.edu"] activities "Drama Club"
                   (mkActivity
                      "Perform in school plays and develop acting and theatrical skills"
                      "Thursdays, 3:30 PM - 5:00 PM" 25 ["lucy@mergington.edu"])
                   _ _ _ _ _)).
  - discriminate.
  - reflexivity.
  - vm_compute. reflexivity.
  - apply (bool_decide_unpack _). vm_compute. exact I.
  - intros e He. apply (bool_decide_unpack _).
    destruct (proj1 (elem_of_cons _ _ _) He) as [->|He']; [vm_compute; exact I|].
    rewrite (proj1 (list_elem_of_singleton _ _) He'). vm_compute. exact I.
Defined.

(** X6. Requests neither create nor repair a duplicate: after any
    sequence of requests the table is free of duplicate participants
    exactly when it was before. *)
Theorem duplicates_never_created_nor_repaired (rs : list Request) (acts : Directory) :
  no_duplicates (run rs acts) ↔ no_duplicates acts.
Proof.
  split; [|apply run_no_duplicates].
  intros Hafter A act Hlook.
  destruct (run_lookup rs acts A act Hlook) as (act' & Hlook' & [k Hk]).
  specialize (Hafter A act' Hlook'). simpl in Hafter.
  rewrite Hk in Hafter. by apply NoDup_app in Hafter as [? _].
Qed.

Lemma signup_snd (A e : string) (acts : Directory) :
  snd (signup_for_activity A e acts)
  = match acts !! A with
    | Some act =>
        if decide (e ∈ participants act) then acts
        else <[A := append_participant e act]> acts
    | None => acts
    end.
Proof.
  unfold signup_for_activity. destruct (acts !! A) as [act|]; [|done].
  by destruct (decide (e ∈ participants act)).
Qed.

Lemma signup_lookup_ne (A B e : string) (acts : Directory) :
  A ≠ B → snd (signup_for_activity A e acts) !! B = acts !! B.
Proof.
  intros Hne. rewrite signup_snd. destruct (acts !! A) as [act|]; [|done].
  destruct (decide (e ∈ participants act)); [done|]. by rewrite lookup_insert_ne.
Qed.

Lemma signup_fst_local (A e : string) (acts acts' : Directory) :
  acts' !! A = acts !! A →
  fst (signup_for_activity A e acts') = fst (signup_for_activity A e acts).
Proof.
  intros Hsame. unfold signup_for_activity. rewrite Hsame.
  destruct (acts !! A) as [act|]; [|done].
  by destruct (decide (e ∈ participants act)).
Qed.

(** X7. Signups for two different activities do not interfere: each is
    answered the same whether the other came before it or not, and the
    table after both is the same in either order. *)
Theorem signups_commute (acts : Directory) (A B e1 e2 : string) :
  A ≠ B →
  snd (signup_for_activity B e2 (snd (signup_for_activity A e1 acts)))
  = snd (signup_for_activity A e1 (snd (signup_for_activity B e2 acts)))
  ∧ fst (signup_for_activity B e2 (snd (signup_for_activity A e1 acts)))
    = fst (signup_for_activity B e2 acts)
  ∧ fst (signup_for_activity A e1 (snd (signup_for_activity B e2 acts)))
    = fst (signup_for_activity A e1 acts).
Proof.
  intros Hne. split_and!.
  - rewrite (signup_snd B e2 (snd _)), (signup_snd A e1 (snd _)).
    rewrite (signup_lookup_ne A B) by done.
    rewrite (signup_lookup_ne B A) by done.
    rewrite !signup_snd.
    destruct (acts !! A) as [a|], (acts !! B) as [b|]; try done.
    destruct (decide (e1 ∈ participants a)), (decide (e2 ∈ participants b)); try done.
    by apply insert_insert_ne.
  - apply signup_fst_local. by apply signup_lookup_ne.
  - apply signup_fst_local. by apply signup_lookup_ne.
Qed.

Lemma signups_commute_witness :
  snd (signup_for_activity "Gym Class" "b@x.edu"
         (snd (signup_for_activity "Chess Club" "a@x.edu" activities)))
  = snd (signup_for_activity "Chess Club" "a@x.edu"
           (snd (signup_for_activity "Gym Class" "b@x.edu" activities)))
  ∧ fst (signup_for_activity "Gym Class" "b@x.edu"
           (snd (signup_for_activity "Chess Club" "a@x.edu" activities)))
    = fst (signup_for_activity "Gym Class" "b@x.edu" activities)
  ∧ fst (signup_for_activity "Chess Club" "a@x.edu"
           (snd (signup_for_activity "Gym Class" "b@x.edu" activities)))
    = fst (signup_for_activity "Chess Club" "a@x.edu" activities).
Proof.
  apply (signups_commute activities "Chess Club" "Gym Class" "a@x.edu" "b@x.edu").
  discriminate.
Defined.

(** X8. After an accepted signup of e for A, the listing is the table as
    the signup left it: it shows A with e as the last participant, and e
    occurs in A's participants exactly once. *)
Theorem listing_after_signup (acts acts' : Directory) (A e : string) (m : Message) :
  signup_for_activity A e acts = (Return m, acts') →
  fst (handle list_request acts') = JSONActivities acts'
  ∧ ∃ act', fst (get_activities acts') !! A = Some act'
      ∧ last (participants act') = Some e
      ∧ count_occ String.string_dec (participants act') e = 1%nat.
Proof.
  intros Hsignup. split; [done|].
  destruct (signup_cases acts A e)
    as [[_ Heq]|[(act & _ & _ & Heq)|(act & Hlook & Hnotin & Heq)]];
    rewrite Heq in Hsignup; try discriminate.
  injection Hsignup as _ <-. exists (append_participant e act).
  split; [apply lookup_insert_eq|]. simpl. split; [apply last_snoc|].
  rewrite count_occ_app. simpl.
  rewrite (proj1 (count_occ_not_In String.string_dec (participants act) e)).
  - by destruct (String.string_dec e e).
  - by rewrite <-list_elem_of_In.
Qed.

Lemma listing_after_signup_witness :
  ∃ act',
    fst (get_activities
           (snd (signup_for_activity "Debate Club" "test@x.edu" activities)))
      !! "Debate Club" = Some act'
    ∧ last (participants act') = Some "test@x.edu"
    ∧ count_occ String.string_dec (participants act') "test@x.edu" = 1%nat.
Proof.
  refine (proj2 (listing_after_signup activities
                   (snd (signup_for_activity "Debate Club" "test@x.edu" activities))
                   "Debate Club" "test@x.edu"
                   (mkMessage "Signed up test@x.edu for Debate Club") _)).
  apply (signup_new_member activities "Debate Club" "test@x.edu"
           (mkActivity
              "Develop public speaking and argumentation skills through competitive debate"
              "Mondays and Fridays, 3:30 PM - 5:00 PM" 16 ["ryan@mergington.edu"])).
  - vm_compute. reflexivity.
  - apply (bool_decide_unpack _). vm_compute. exact I.
Defined.

(** X10. max_participants is no bound on the participants: for every
    activity of the table whose name can stand in the path of a request
    (not empty, no slash) and every number n there are n signup requests
    after which the activity has n participants more than before. *)
Theorem capacity_is_not_enforced (n : nat) (acts : Directory) (A : string)
    (act : Activity) :
  A ≠ "" →
  has_slash A = false →
  acts !! A = Some act →
  ∃ rs, length rs = n
    ∧ length (participants_of A (run rs acts)) = (length (participants act) + n)%nat.
Proof.
  intros Hname Hslash Hlook.
  pose (es := fresh_list n (list_to_set (participants act) : gset string)).
  assert (length es = n) as Hlen by apply length_fresh_list.
  exists (signup_request A <$> es). split.
  - by rewrite length_fmap.
  - rewrite (run_signup_list es acts A act Hname Hslash Hlook).
    + rewrite participants_of_insert. simpl. by rewrite length_app, Hlen.
    + apply NoDup_fresh_list.
    + intros e He Hin. apply fresh_list_is_fresh in He.
      apply He. by apply elem_of_list_to_set.
Qed.

Lemma capacity_is_not_enforced_witness :
  ∃ rs, length rs = 30%nat
    ∧ length (participants_of "Debate Club" (run rs activities)) = (1 + 30)%nat.
Proof.
  apply (capacity_is_not_enforced 30 activities "Debate Club"
           (mkActivity
              "Develop public speaking and argumentation skills through competitive debate"
              "Mondays and Fridays, 3:30 PM - 5:00 PM" 16 ["ryan@mergington.edu"])).
  - discriminate.
  - reflexivity.
  - vm_compute. reflexivity.
Defined.

(** ** The store of list objects and the table of values *)

Lemma no_sharing_alt (t : gmap string ActivityObj) :
  no_sharing t ↔
  ∀ A B a b, t !! A = Some a → t !! B = Some b →
             obj_participants a = obj_participants b → A = B.
Proof.
  unfold no_sharing, map_Forall. split.
  - intros H A B a b HA HB. by apply (H A a HA B b HB).
  - intros H A a HA B b HB. by apply (H A B a b).
Qed.

Lemma serialize_lookup (st : Store) (A : string) :
  serialize st !! A
  = (λ o, mkActivity (obj_description o) (obj_schedule o) (obj_max_participants o)
            (list_at (obj_participants o) (lists st))) <$> table st !! A.
Proof. unfold serialize. by rewrite lookup_fmap. Qed.

Lemma list_at_insert (l : loc) (x : list string) (h : gmap loc (list string)) :
  list_at l (<[l := x]> h) = x.
Proof. unfold list_at. by rewrite lookup_insert_eq. Qed.

Lemma list_at_insert_ne (l l' : loc) (x : list string) (h : gmap loc (list string)) :
  l ≠ l' → list_at l' (<[l := x]> h) = list_at l' h.
Proof. intros Hne. unfold list_at. by rewrite lookup_insert_ne. Qed.

Lemma signup_obj_table (A e : string) (st : Store) :
  table (snd (signup_for_activity_obj A e st)) = table st.
Proof.
  unfold signup_for_activity_obj. destruct (table st !! A) as [o|]; [|done].
  simpl. by case_decide.
Qed.

Lemma signup_obj_refines (A e : string) (st : Store) :
  no_sharing (table st) →
  fst (signup_for_activity_obj A e st) = fst (signup_for_activity A e (serialize st))
  ∧ serialize (snd (signup_for_activity_obj A e st))
    = snd (signup_for_activity A e (serialize st)).
Proof.
  intros Hshare. unfold signup_for_activity_obj, signup_for_activity.
  rewrite serialize_lookup.
  destruct (table st !! A) as [o|] eqn:HA; simpl; [|done].
  destruct (decide (e ∈ list_at (obj_participants o) (lists st))); simpl; [done|].
  split; [done|]. apply map_eq. intros B.
  rewrite serialize_lookup. simpl.
  destruct (decide (A = B)) as [<-|Hne].
  - rewrite lookup_insert_eq, HA. simpl. unfold append_participant. simpl.
    by rewrite list_at_insert.
  - rewrite lookup_insert_ne by done. rewrite serialize_lookup.
    destruct (table st !! B) as [b|] eqn:HB; simpl; [|done].
    rewrite list_at_insert_ne; [done|].
    intros Heq. apply Hne. by apply (proj1 (no_sharing_alt _) Hshare A B o b).
Qed.

Lemma handle_obj_table (r : Request) (st : Store) :
  table (snd (handle_obj r st)) = table st.
Proof.
  unfold handle_obj. destruct (route (method r) (path r)) as [[| |A]|]; try done.
  destruct (email_param r) as [e|]; [|done].
  pose proof (signup_obj_table A e st) as Htable.
  by destruct (signup_for_activity_obj A e st) as [[m|ex] st'].
Qed.

Lemma handle_obj_refines (r : Request) (st : Store) :
  no_sharing (table st) →
  fst (handle_obj r st) = fst (handle r (serialize st))
  ∧ serialize (snd (handle_obj r st)) = snd (handle r (serialize st)).
Proof.
  intros Hshare. unfold handle_obj, handle.
  destruct (route (method r) (path r)) as [[| |A]|]; try done.
  destruct (email_param r) as [e|]; [|done].
  destruct (signup_obj_refines A e st Hshare) as [Hfst Hsnd].
  destruct (signup_for_activity_obj A e st) as [[m|ex] st'],
    (signup_for_activity A e (serialize st)) as [[m'|ex'] acts'];
    simpl in *; by simplify_eq.
Qed.

Lemma run_obj_table (rs : list Request) (st : Store) :
  table (run_obj rs st) = table st.
Proof.
  revert st. induction rs as [|r rs IH]; intros st; simpl; [done|].
  by rewrite IH, handle_obj_table.
Qed.

Lemma run_obj_refines (rs : list Request) (st : Store) :
  no_sharing (table st) → serialize (run_obj rs st) = run rs (serialize st).
Proof.
  revert st. induction rs as [|r rs IH]; intros st Hshare; simpl; [done|].
  destruct (handle_obj_refines r st Hshare) as [_ <-].
  apply IH. by rewrite handle_obj_table.
Qed.

(** X11. As long as no two activities share a list object, the table of
    values describes the store of list objects exactly: serving any
    requests from the store and then encoding it gives the table that
    serving them from the encoded store gives, and the next request gets
    the same reply from both. *)
Theorem store_refines_table (rs : list Request) (r : Request) (st : Store) :
  no_sharing (table st) →
  serialize (run_obj rs st) = run rs (serialize st)
  ∧ fst (handle_obj r (run_obj rs st)) = fst (handle r (run rs (serialize st))).
Proof.
  intros Hshare. split; [by apply run_obj_refines|].
  rewrite <-(run_obj_refines rs st Hshare).
  apply handle_obj_refines. by rewrite run_obj_table.
Qed.

(** ** The fixture [reset_activities] *)

(** A signup writes only to the list object of an activity of the table. *)
Lemma signup_obj_lists (A e : string) (st : Store) (l : loc) :
  (∀ B b, table st !! B = Some b → obj_participants b ≠ l) →
  lists (snd (signup_for_activity_obj A e st)) !! l = lists st !! l.
Proof.
  intros Hunref. unfold signup_for_activity_obj.
  destruct (table st !! A) as [o|] eqn:HA; [|done]. simpl.
  case_decide; [done|]. simpl. rewrite lookup_insert_ne; [done|]. by apply (Hunref A).
Qed.

Lemma handle_obj_lists (r : Request) (st : Store) (l : loc) :
  (∀ B b, table st !! B = Some b → obj_participants b ≠ l) →
  lists (snd (handle_obj r st)) !! l = lists st !! l.
Proof.
  intros Hunref. unfold handle_obj.
  destruct (route (method r) (path r)) as [[| |A]|]; try done.
  destruct (email_param r) as [e|]; [|done].
  pose proof (signup_obj_lists A e st l Hunref) as Hl.
  by destruct (signup_for_activity_obj A e st) as [[m|ex] st'].
Qed.

Lemma run_obj_lists (rs : list Request) (st : Store) (l : loc) :
  (∀ B b, table st !! B = Some b → obj_participants b ≠ l) →
  lists (run_obj rs st) !! l = lists st !! l.
Proof.
  revert st. induction rs as [|r rs IH]; intros st Hunref; simpl; [done|].
  rewrite IH; [by apply handle_obj_lists|].
  by rewrite handle_obj_table.
Qed.

Lemma snapshot_of_fold (h0 : gmap loc (list string)) (m : gmap string ActivityObj) :
  map_Forall (λ _ o, obj_participants o ∈ dom h0) m →
  snapshot_of h0 m (map_fold copy_activity (∅, h0) m).
Proof.
  apply (map_fold_weak_ind
           (λ acc m, map_Forall (λ _ o, obj_participants o ∈ dom h0) m →
                     snapshot_of h0 m acc)).
  - intros _. unfold snapshot_of. simpl. by split_and!.
  - clear m. intros i x m [orig h] Hfresh IH Hwf.
    apply map_Forall_insert in Hwf as [Hx Hwf]; [|done].
    destruct (IH Hwf) as (Hold & Hdom & Hcopy & Hnew & Hshare). simpl in *.
    set (l := fresh (dom h)).
    assert (l ∉ dom h) as Hl by apply is_fresh.
    assert (∀ l', l' ∈ dom h0 → l' ∈ dom h) as Hsub.
    { intros l' Hl'. apply elem_of_dom. rewrite (Hold l' Hl'). by apply elem_of_dom. }
    unfold snapshot_of, copy_activity. simpl. fold l. split_and!.
    + intros l' Hl'. rewrite lookup_insert_ne; [by apply Hold|].
      intros <-. by apply Hl, Hsub.
    + by rewrite !dom_insert_L, Hdom.
    + intros name o Hlook. destruct (decide (i = name)) as [<-|Hne].
      * rewrite lookup_insert_eq in Hlook. injection Hlook as <-.
        eexists. rewrite lookup_insert_eq. split_and!; try done.
        simpl. rewrite lookup_insert_eq. unfold list_at. by rewrite (Hold _ Hx).
      * rewrite lookup_insert_ne in Hlook by done.
        destruct (Hcopy name o Hlook) as (o' & Ho' & Hd & Hs & Hm & Hcell).
        exists o'. rewrite lookup_insert_ne by done. split_and!; try done.
        rewrite lookup_insert_ne; [done|].
        intros Heq. apply Hl. rewrite Heq. by apply (Hnew name o').
    + intros name o' Hlook. destruct (decide (i = name)) as [<-|Hne].
      * rewrite lookup_insert_eq in Hlook. injection Hlook as <-. simpl.
        split; [|intros Hin; by apply Hl, Hsub].
        rewrite dom_insert_L. apply elem_of_union. left. by apply elem_of_singleton.
      * rewrite lookup_insert_ne in Hlook by done.
        destruct (Hnew name o' Hlook) as [Hin Hout].
        split; [|done]. rewrite dom_insert_L. apply elem_of_union. by right.
    + apply no_sharing_alt. intros A B a b HA HB Hsame.
      destruct (decide (i = A)) as [<-|HneA], (decide (i = B)) as [<-|HneB]; [done|..].
      * rewrite lookup_insert_eq in HA. injection HA as <-.
        rewrite lookup_insert_ne in HB by done. simpl in Hsame.
        destruct Hl. rewrite Hsame. by apply (Hnew B b).
      * rewrite lookup_insert_eq in HB. injection HB as <-.
        rewrite lookup_insert_ne in HA by done. simpl in Hsame.
        destruct Hl. rewrite <-Hsame. by apply (Hnew A a).
      * rewrite lookup_insert_ne in HA, HB by done.
        by apply (proj1 (no_sharing_alt _) Hshare A B a b).
Qed.

(** One test under the fixture: after the snapshot, the requests of the
    test and the restoring [clear] and [update], a client sees the
    activities as before the test, and every activity again has a list
    object of its own. *)
Lemma reset_activities_spec (rs : list Request) (st : Store) :
  well_formed st →
  no_sharing (table st) →
  serialize (reset_activities rs st) = serialize st
  ∧ well_formed (reset_activities rs st)
  ∧ no_sharing (table (reset_activities rs st)).
Proof.
  intros Hwf Hshare.
  pose proof (snapshot_of_fold (lists st) (table st) Hwf) as Hsnap.
  unfold reset_activities. fold (snapshot st) in Hsnap.
  destruct (snapshot st) as [orig h].
  destruct Hsnap as (Hold & Hdom & Hcopy & Hnew & Hshare'). simpl in *.
  unfold dict_update, dict_clear. rewrite (right_id_L ∅ (∪)).
  assert (∀ name o', orig !! name = Some o' →
            lists (run_obj rs (mkStore (table st) h)) !! obj_participants o'
            = h !! obj_participants o') as Hkept.
  { intros name o' Ho'. apply run_obj_lists. simpl. intros B b Hb Heq.
    destruct (Hnew name o' Ho') as [_ Hout]. apply Hout. rewrite <-Heq.
    by apply (Hwf B b). }
  split_and!.
  - apply map_eq. intros name. rewrite !serialize_lookup. simpl.
    destruct (table st !! name) as [o|] eqn:Ho.
    + destruct (Hcopy name o Ho) as (o' & Ho' & Hd & Hs & Hm & Hcell).
      rewrite Ho'. simpl. f_equal. unfold list_at at 1.
      rewrite (Hkept name o' Ho'), Hcell. simpl. by rewrite Hd, Hs, Hm.
    + assert (orig !! name = None) as ->; [|done].
      apply not_elem_of_dom. rewrite Hdom. by apply not_elem_of_dom.
  - intros name o' Ho'. simpl in *. apply elem_of_dom.
    rewrite (Hkept name o' Ho'). apply elem_of_dom. by apply (Hnew name o').
  - done.
Qed.

Lemma serialize_activities_obj : serialize activities_obj = activities.
Proof.
  unfold serialize, activities_obj, activities. simpl.
  rewrite !fmap_insert, fmap_empty. reflexivity.
Qed.

Lemma store_refines_table_witness :
  serialize (run_obj [signup_request "Chess Club" "test@x.edu"] activities_obj)
  = run [signup_request "Chess Club" "test@x.edu"] (serialize activities_obj)
  ∧ fst (handle_obj list_request
           (run_obj [signup_request "Chess Club" "test@x.edu"] activities_obj))
    = fst (handle list_request
             (run [signup_request "Chess Club" "test@x.edu"]
                (serialize activities_obj))).
Proof.
  apply (store_refines_table [signup_request "Chess Club" "test@x.edu"]
           list_request activities_obj).
  apply (bool_decide_unpack _). vm_compute. exact I.
Defined.

(** X12. The fixture isolates the tests: when every activity has a list
    object of its own, then after any number of tests, each run between
    the snapshot and the restoring [clear] and [update] of
    [reset_activities] and sending whatever requests, a client sees the
    activities exactly as before the first test, and every activity
    again has a list object of its own. *)
Theorem fixture_isolates_tests (tests : list (list Request)) (st : Store) :
  well_formed st →
  no_sharing (table st) →
  serialize (run_tests tests st) = serialize st
  ∧ well_formed (run_tests tests st)
  ∧ no_sharing (table (run_tests tests st)).
Proof.
  revert st. induction tests as [|rs tests IH]; intros st Hwf Hshare; simpl; [done|].
  destruct (reset_activities_spec rs st Hwf Hshare) as (Hsame & Hwf' & Hshare').
  destruct (IH _ Hwf' Hshare') as (Hsame'' & Hwf'' & Hshare'').
  split_and!; [congruence|done..].
Qed.

Lemma fixture_isolates_tests_witness :
  serialize (run_tests
               [[signup_request "Chess Club" "test@x.edu"];
                [signup_request "Chess Club" "test@x.edu";
                 signup_request "Gym Class" "test@x.edu"]] activities_obj)
  = serialize activities_obj
  ∧ well_formed (run_tests
                   [[signup_request "Chess Club" "test@x.edu"];
                    [signup_request "Chess Club" "test@x.edu";
                     signup_request "Gym Class" "test@x.edu"]] activities_obj)
  ∧ no_sharing (table (run_tests
                         [[signup_request "Chess Club" "test@x.edu"];
                          [signup_request "Chess Club" "test@x.edu";
                           signup_request "Gym Class" "test@x.edu"]] activities_obj)).
Proof.
  apply (fixture_isolates_tests
           [[signup_request "Chess Club" "test@x.edu"];
            [signup_request "Chess Club" "test@x.edu";
             signup_request "Gym Class" "test@x.edu"]] activities_obj).
  - apply (bool_decide_unpack _). vm_compute. exact I.
  - apply (bool_decide_unpack _). vm_compute. exact I.
Defined.

Example reset_activities_after_signup :
  participants_of "Chess Club"
    (serialize (run_obj [signup_request "Chess Club" "test@x.edu"] activities_obj))
  = ["michael@mergington.edu"; "daniel@mergington.edu"; "test@x.edu"]
  ∧ participants_of "Chess Club"
      (serialize (reset_activities [signup_request "Chess Club" "test@x.edu"]
                    activities_obj))
    = ["michael@mergington.edu"; "daniel@mergington.edu"].
Proof. split; vm_compute; reflexivity. Qed.
